(** * GitHub Trending scraper (main.js): model and verified properties

    The program fetches [https://github.com/trending/<language>], loads the
    markup with cheerio, walks every [article.Box-row] block and prints the
    repositories it found.

    - JavaScript strings are sequences of UTF-16 code units ([jsstring]).
    - The parsed document is a tree of text, comment and element nodes; the
      cheerio calls used by the program ([$], [find], [text], [attr], [each])
      are modelled on that tree.
    - Console output, the HTTP request and [process.exit] are recorded in a
      trace of events threaded by a small monad. *)

From Stdlib Require Import List NArith ZArith Bool Ascii String Lia.
From Stdlib Require Import DecimalString.
Import ListNotations.

Local Open Scope N_scope.
Local Open Scope list_scope.

(* ================================================================== *)
(** ** JavaScript strings *)

Module JsString.

(** A string value: a finite sequence of 16-bit code units. *)
Definition jsstring := list N.

(** An ASCII literal, one code unit per character. *)
Definition lit (s : string) : jsstring :=
  map N_of_ascii (list_ascii_of_string s).

Fixpoint str_eqb (a b : jsstring) : bool :=
  match a, b with
  | [], [] => true
  | x :: a', y :: b' => (x =? y) && str_eqb a' b'
  | _, _ => false
  end.

(** The characters matched by the regular-expression class [\s]; they are
    also the ones [String.prototype.trim] removes (WhiteSpace and
    LineTerminator): TAB LF VT FF CR, SP, NBSP, U+1680, U+2000..U+200A,
    LS, PS, U+202F, U+205F, U+3000 and the BOM. *)
Definition isWhiteSpace (c : N) : bool :=
  ((9 <=? c) && (c <=? 13))
  || (c =? 32) || (c =? 160) || (c =? 5760)
  || ((8192 <=? c) && (c <=? 8202))
  || (c =? 8232) || (c =? 8233) || (c =? 8239) || (c =? 8287)
  || (c =? 12288) || (c =? 65279).

(** [s.replace(/\s/g, replacement)]: scan left to right, every match of the
    one-character pattern is replaced, everything else is copied. *)
Fixpoint replace_ws_global (replacement s : jsstring) : jsstring :=
  match s with
  | [] => []
  | c :: s' =>
      if isWhiteSpace c then replacement ++ replace_ws_global replacement s'
      else c :: replace_ws_global replacement s'
  end.

(** [s.trimStart()], [s.trimEnd()] and [s.trim()]. *)
Fixpoint trimStart (s : jsstring) : jsstring :=
  match s with
  | [] => []
  | c :: s' => if isWhiteSpace c then trimStart s' else s
  end.

Definition trimEnd (s : jsstring) : jsstring := rev (trimStart (rev s)).

Definition trim (s : jsstring) : jsstring := trimEnd (trimStart s).

(** [s.endsWith(suffix)]. *)
Definition endsWith (s suffix : jsstring) : bool :=
  (List.length suffix <=? List.length s)%nat
  && str_eqb (skipn (List.length s - List.length suffix) s) suffix.

(** Truthiness of a string: only the empty string is falsy. *)
Definition truthy (s : jsstring) : bool :=
  match s with [] => false | _ :: _ => true end.

(** A value interpolated in a template literal: [undefined] prints as the
    nine letters of its name. *)
Definition template_value (v : option jsstring) : jsstring :=
  match v with
  | Some s => s
  | None => lit "undefined"
  end.

(** Decimal rendering of an array length or index. *)
Definition number_to_string (n : nat) : jsstring :=
  lit (NilZero.string_of_uint (Nat.to_uint n)).

(** Splitting on white space, as the class-attribute test does. *)
Fixpoint split_ws (cur s : jsstring) : list jsstring :=
  match s with
  | [] => [cur]
  | c :: s' =>
      if isWhiteSpace c then cur :: split_ws [] s'
      else split_ws (cur ++ [c]) s'
  end.

End JsString.
Export JsString.

(* ================================================================== *)
(** ** The parsed document and the cheerio operations the program uses *)

Module Cheerio.

#[local] Set Warnings "-register-all".

Inductive node :=
| text_node (data : jsstring)
| comment_node (data : jsstring)
| element (name : jsstring) (attribs : list (jsstring * jsstring))
          (children : list node).

(** A loaded document: the children of the root, in document order. *)
Definition document := list node.

(** Text of a node and of everything below it; comments contribute none. *)
Fixpoint textContent (n : node) : jsstring :=
  match n with
  | text_node d => d
  | comment_node _ => []
  | element _ _ cs => flat_map textContent cs
  end.

(** Every proper descendant of [n] paired with its parent, in document
    (pre-order) order. *)
Fixpoint descendants (n : node) : list (node * node) :=
  match n with
  | element _ _ cs => flat_map (fun c => (n, c) :: descendants c) cs
  | _ => []
  end.

(** All nodes of the document in document order. *)
Definition all_nodes (d : document) : list node :=
  flat_map (fun c => c :: map snd (descendants c)) d.

Fixpoint lookup (key : jsstring) (attribs : list (jsstring * jsstring))
  : option jsstring :=
  match attribs with
  | [] => None
  | (k, v) :: rest => if str_eqb k key then Some v else lookup key rest
  end.

Definition getAttributeValue (key : jsstring) (n : node) : option jsstring :=
  match n with
  | element _ attribs _ => lookup key attribs
  | _ => None
  end.

(** The selectors of the program: compound selectors made of a tag name,
    a class token and an attribute-suffix test, alone (matched against the
    descendants of the context) or under a child combinator. *)
Inductive simple_selector :=
| sel_tag (name : jsstring)
| sel_class (token : jsstring)
| sel_attr_ends (key value : jsstring).

Definition compound := list simple_selector.

Inductive selector :=
| sel_descendant (c : compound)
| sel_child (parent c : compound).

Definition matches_simple (s : simple_selector) (n : node) : bool :=
  match n with
  | element name _ _ =>
      match s with
      | sel_tag t => str_eqb name t
      | sel_class token =>
          match getAttributeValue (lit "class") n with
          | Some cls => existsb (str_eqb token) (split_ws [] cls)
          | None => false
          end
      | sel_attr_ends key value =>
          match getAttributeValue key n with
          | Some v => negb (Nat.eqb (List.length value) 0) && endsWith v value
          | None => false
          end
      end
  | _ => false
  end.

Definition matches (c : compound) (n : node) : bool :=
  forallb (fun s => matches_simple s n) c.

(** [$(selector)] on the whole document. *)
Definition select (c : compound) (d : document) : list node :=
  filter (matches c) (all_nodes d).

(** [$(context).find(selector)] for a single context element. *)
Definition find (s : selector) (context : node) : list node :=
  match s with
  | sel_descendant c => filter (matches c) (map snd (descendants context))
  | sel_child p c =>
      map snd (filter (fun pc => matches p (fst pc) && matches c (snd pc))
                      (descendants context))
  end.

(** [.text()]: the text of every matched element, concatenated. *)
Definition text (selection : list node) : jsstring :=
  flat_map textContent selection.

(** [.attr(name)]: the attribute of the first matched element, [undefined]
    when nothing matched or the attribute is absent. *)
Definition attr (key : jsstring) (selection : list node) : option jsstring :=
  match selection with
  | [] => None
  | e :: _ => getAttributeValue key e
  end.

(** [.each(callback)]: the callback runs on every matched element with its
    index, in order; [st] is the state the callback mutates. *)
Fixpoint each {St : Type} (callback : nat -> node -> St -> St)
         (i : nat) (selection : list node) (st : St) : St :=
  match selection with
  | [] => st
  | e :: rest => each callback (S i) rest (callback i e st)
  end.

End Cheerio.
Export Cheerio.

(* ================================================================== *)
(** ** Extraction (the body of the [try] block of [fetchTrendingRepos]) *)

Module Extractor.

Record repo := mkRepo {
  name : jsstring;
  url : jsstring;
  description : jsstring;
  stars : jsstring
}.

Definition origin : jsstring := lit "https://github.com".

Definition article_Box_row : compound :=
  [sel_tag (lit "article"); sel_class (lit "Box-row")].
Definition h2_child_a : selector :=
  sel_child [sel_tag (lit "h2")] [sel_tag (lit "a")].
Definition p_col_9 : selector :=
  sel_descendant [sel_tag (lit "p"); sel_class (lit "col-9")].
Definition a_href_stargazers : selector :=
  sel_descendant [sel_tag (lit "a");
                  sel_attr_ends (lit "href") (lit "/stargazers")].

(** The locals the callback computes for one row, gathered in the object
    literal it may push. *)
Definition row_record (repoElement : node) : repo :=
  let titleElement := find h2_child_a repoElement in
  let repoName := replace_ws_global [] (text titleElement) in
  let repoUrl := origin ++ template_value (attr (lit "href") titleElement) in
  let description := trim (text (find p_col_9 repoElement)) in
  let stars := trim (text (find a_href_stargazers repoElement)) in
  {| name := repoName; url := repoUrl;
     description := description; stars := stars |}.

(** The callback given to [each]; [repos] is the array it pushes to. *)
Definition each_callback (i : nat) (elem : node) (repos : list repo)
  : list repo :=
  let r := row_record elem in
  if truthy (name r) then repos ++ [r] else repos.

(** [const repos = []; $('article.Box-row').each(...); return repos]. *)
Definition extract (dollar : document) : list repo :=
  each each_callback 0 (select article_Box_row dollar) [].

End Extractor.
Export Extractor.

(* ================================================================== *)
(** ** Effects: console, network and process exit *)

Module Effects.

Inductive event :=
| console_log (args : list jsstring)
| console_error (args : list jsstring)
| http_get (url : jsstring) (headers : list (jsstring * jsstring)).

(** How a computation ends: with a value, by [process.exit], or by an
    exception nobody caught. *)
Inductive outcome (A : Type) :=
| returned (a : A)
| exited (code : Z)
| uncaught (what : jsstring).
Arguments returned {A} a.
Arguments exited {A} code.
Arguments uncaught {A} what.

(** A computation reads the trace so far and extends it. *)
Definition IO (A : Type) := list event -> outcome A * list event.

Definition ret {A} (a : A) : IO A := fun t => (returned a, t).

Definition bind {A B} (m : IO A) (k : A -> IO B) : IO B :=
  fun t =>
    match m t with
    | (returned a, t') => k a t'
    | (exited c, t') => (exited c, t')
    | (uncaught w, t') => (uncaught w, t')
    end.

Definition emit (e : event) : IO unit := fun t => (returned tt, t ++ [e]).

Definition process_exit (code : Z) : IO unit := fun t => (exited code, t).

Definition throw {A} (what : jsstring) : IO A := fun t => (uncaught what, t).

Notation "x <- m ;; k" := (bind m (fun x => k))
  (at level 61, m at next level, right associativity).
Notation "m ;; k" := (bind m (fun _ => k))
  (at level 61, right associativity).

(** [array.forEach((item, index) => ...)]. *)
Fixpoint forEach {A} (callback : A -> nat -> IO unit) (index : nat)
         (array : list A) : IO unit :=
  match array with
  | [] => ret tt
  | x :: rest => callback x index ;; forEach callback (S index) rest
  end.

(** The text written for a console call: arguments separated by a space. *)
Fixpoint render (args : list jsstring) : jsstring :=
  match args with
  | [] => []
  | [a] => a
  | a :: rest => a ++ lit " " ++ render rest
  end.

End Effects.
Export Effects.

(* ================================================================== *)
(** ** The program *)

Module Main.

Record http_response := { status : Z }.

(** The error object [axios.get] rejects with. *)
Record axios_error := {
  response : option http_response;
  message : jsstring
}.

#[local] Set Warnings "-register-all".

(** The [data] of a response: the body as a string, or what axios made of
    a body it could parse as JSON. Numbers are kept as their source
    text. *)
Inductive js_value :=
| js_null
| js_boolean (b : bool)
| js_number (literal : jsstring)
| js_string (s : jsstring)
| js_array (items : list js_value)
| js_object (members : list (jsstring * js_value)).

Inductive axios_result :=
| resolved (data : js_value)
| rejected (error : axios_error).

(** What [cheerio.load(data)] and the walk over its result come to: a
    document, or a thrown error. The [catch] block reads the same two
    properties of whatever was thrown, [response] and [message]; the
    errors cheerio throws have no [response]. *)
Inductive load_result :=
| loaded (dollar : document)
| load_threw (error : axios_error).

Definition colors_reset : jsstring := 27 :: lit "[0m".
Definition colors_bright : jsstring := 27 :: lit "[1m".
Definition colors_cyan : jsstring := 27 :: lit "[36m".
Definition colors_yellow : jsstring := 27 :: lit "[33m".
Definition colors_green : jsstring := 27 :: lit "[32m".

Definition user_agent : jsstring :=
  lit "Mozilla/5.0 (Windows NT 10.0; Win64; x64) AppleWebKit/537.36 (KHTML, like Gecko) Chrome/91.0.4472.124 Safari/537.36".

Definition request_headers : list (jsstring * jsstring) :=
  [(lit "User-Agent", user_agent)].

Definition trending_url (language : jsstring) : jsstring :=
  lit "https://github.com/trending/" ++ language.

(** The messages; letters outside ASCII are given by their code unit. *)
Definition msg_searching (language : jsstring) : jsstring :=
  lit "Buscando reposit" ++ [243] ++ lit "rios em alta para '"
    ++ language ++ lit "'...".

Definition msg_language_not_found (language : jsstring) : jsstring :=
  lit "Erro: A linguagem " ++ [34] ++ language ++ [34] ++ lit " n" ++ [227]
    ++ lit "o foi encontrada no GitHub Trending.".

Definition msg_fetch_failed : jsstring :=
  lit "Erro ao buscar a p" ++ [225] ++ lit "gina:".

Definition msg_none_found : jsstring :=
  lit "Nenhum reposit" ++ [243] ++ lit "rio encontrado.".

Definition msg_header (count : nat) : jsstring :=
  [10] ++ lit "--- Top " ++ number_to_string count ++ lit " Reposit" ++ [243]
    ++ lit "rios em Alta ---" ++ [10].

Definition msg_no_description : jsstring :=
  lit "Sem descri" ++ [231; 227] ++ lit "o.".

Definition msg_missing_language : jsstring :=
  lit "Erro: Por favor, especifique uma linguagem.".

Definition msg_usage : jsstring := lit "Uso: node main.js <linguagem>".

Definition is_404 (error : axios_error) : bool :=
  match response error with
  | Some r => (status r =? 404)%Z
  | None => false
  end.

Section Program.

(** The environment: what the network answers to a request, the cheerio
    parser and the platform's lower-casing of strings. *)
Variable network : jsstring -> list (jsstring * jsstring) -> axios_result.
Variable cheerio_load : js_value -> load_result.
Variable toLowerCase : jsstring -> jsstring.

Definition axios_get (url : jsstring) (headers : list (jsstring * jsstring))
  : IO axios_result :=
  emit (http_get url headers) ;; ret (network url headers).

(** The [catch] block of [fetchTrendingRepos]. *)
Definition catch_block (language : jsstring) (error : axios_error)
  : IO (option (list repo)) :=
  (if is_404 error
   then emit (console_error [msg_language_not_found language])
   else emit (console_error [msg_fetch_failed; message error])) ;;
  ret None.

(** [fetchTrendingRepos]: the records, or [null] ([None]) after an error.
    The [try] block holds the request, the load and the loop, so an error
    thrown by any of them ends in the one [catch] block. *)
Definition fetchTrendingRepos (language : jsstring)
  : IO (option (list repo)) :=
  let url := trending_url language in
  emit (console_log [msg_searching language]) ;;
  result <- axios_get url request_headers ;;
  match result with
  | resolved data =>
      match cheerio_load data with
      | loaded dollar => ret (Some (extract dollar))
      | load_threw error => catch_block language error
      end
  | rejected error => catch_block language error
  end.

Definition display_one (r : repo) (index : nat) : IO unit :=
  emit (console_log [colors_bright ++ number_to_string (index + 1)
                       ++ lit ". " ++ colors_cyan ++ name r
                       ++ colors_reset]) ;;
  emit (console_log [lit "   " ++ colors_yellow ++ [9733] ++ lit " "
                       ++ stars r ++ lit " estrelas" ++ colors_reset]) ;;
  emit (console_log [lit "   " ++ (if truthy (description r)
                                   then description r
                                   else msg_no_description)]) ;;
  emit (console_log [lit "   " ++ colors_green ++ url r ++ colors_reset
                       ++ [10]]).

(** [displayRepos]; the argument may be [null]. *)
Definition displayRepos (repos : option (list repo)) : IO unit :=
  match repos with
  | None | Some [] => emit (console_log [msg_none_found])
  | Some rs =>
      emit (console_log [msg_header (List.length rs)]) ;;
      forEach display_one 0 rs
  end.

(** [main]; [argv] is [process.argv], so the language is its third entry.
    Were [process.exit] to return, calling a method of [undefined] would
    throw. *)
Definition main (argv : list jsstring) : IO unit :=
  let language := nth_error argv 2 in
  (if negb (match language with Some l => truthy l | None => false end)
   then emit (console_error [msg_missing_language]) ;;
        emit (console_log [msg_usage]) ;;
        process_exit 1
   else ret tt) ;;
  match language with
  | None => throw (lit "TypeError")
  | Some l =>
      repos <- fetchTrendingRepos (toLowerCase l) ;;
      match repos with
      | Some _ => displayRepos repos
      | None => ret tt
      end
  end.

(** Running the program from an empty trace. *)
Definition run_main (argv : list jsstring) : outcome unit * list event :=
  main argv [].

End Program.

End Main.
Export Main.

(* ================================================================== *)
(** ** Sample documents *)

Module Fixtures.

Definition anchor (href : option jsstring) (content : jsstring) : node :=
  element (lit "a")
          (match href with Some h => [(lit "href", h)] | None => [] end)
          [text_node content].

Definition heading (links : list node) : node :=
  element (lit "h2") [(lit "class", lit "h3 lh-condensed")] links.

Definition paragraph (content : jsstring) : node :=
  element (lit "p") [(lit "class", lit "col-9 color-fg-muted my-1 pr-4")]
          [text_node content].

Definition star_link (repo_path content : jsstring) : node :=
  element (lit "div") []
          [element (lit "a") [(lit "href", repo_path ++ lit "/stargazers")]
                   [text_node content]].

Definition box_row (children : list node) : node :=
  element (lit "article") [(lit "class", lit "Box-row")] children.

(** A complete row, as the page renders it. *)
Definition row_foo_bar : node :=
  box_row [heading [anchor (Some (lit "/foo/bar")) (lit " foo / bar ")];
           paragraph (10 :: lit "  A  small   tool " ++ [10]);
           star_link (lit "/foo/bar") (lit " 1,234 ")].

(** Rows without a usable title. *)
Definition row_no_title : node :=
  box_row [paragraph (lit "orphan description")].
Definition row_blank_title : node :=
  box_row [heading [anchor (Some (lit "/blank")) (9 :: lit "  " ++ [10; 160])]].

(** A title link without any [href] attribute, and one with an empty one. *)
Definition row_no_href : node :=
  box_row [heading [anchor None (lit "x / y")]].
Definition row_empty_href : node :=
  box_row [heading [anchor (Some []) (lit "u/v")]].

Definition page (rows : list node) : document :=
  [element (lit "html") []
     [element (lit "body") []
        [element (lit "div") [(lit "class", lit "Box")] rows]]].

Definition page_two_rows : document := page [row_foo_bar; row_empty_href].
Definition page_mixed : document :=
  page [row_no_title; row_foo_bar; row_blank_title; row_no_href].
Definition page_empty : document := page [].

(** Environments for whole-program runs. *)
Definition argv_of (language : jsstring) : list jsstring :=
  [lit "node"; lit "main.js"; language].

Definition network_404 (_ : jsstring) (_ : list (jsstring * jsstring))
  : axios_result :=
  rejected {| response := Some {| status := 404 |};
              message := lit "Request failed with status code 404" |}.

Definition network_down (_ : jsstring) (_ : list (jsstring * jsstring))
  : axios_result :=
  rejected {| response := None; message := lit "getaddrinfo ENOTFOUND" |}.

Definition network_ok (_ : jsstring) (_ : list (jsstring * jsstring))
  : axios_result := resolved (js_string (lit "<html>")).

Definition load_as (d : document) (_ : js_value) : load_result := loaded d.

Definition identity_case (s : jsstring) : jsstring := s.

End Fixtures.

(* ================================================================== *)
(** ** Predicates used to state the properties *)

Module Props.

Definition blank (s : jsstring) : Prop :=
  Forall (fun c => isWhiteSpace c = true) s.

Definition no_whitespace (s : jsstring) : Prop :=
  Forall (fun c => isWhiteSpace c = false) s.

(** [t] is [s] with white space taken off both ends and nothing else:
    [s] is [t] between two blank margins, and [t] neither starts nor ends
    with a white-space character. *)
Definition trimmed_of (t s : jsstring) : Prop :=
  (exists l r, s = l ++ t ++ r /\ blank l /\ blank r)
  /\ (forall c rest, t = c :: rest -> isWhiteSpace c = false)
  /\ (forall front c, t = front ++ [c] -> isWhiteSpace c = false).

(** The rows of a document: the blocks [$('article.Box-row')] matches. *)
Definition rows_of (dollar : document) : list node :=
  select article_Box_row dollar.

(** A row has a title link whose text is not all white space. *)
Definition well_titled (row : node) : Prop :=
  exists a, In a (find h2_child_a row)
            /\ replace_ws_global [] (textContent a) <> [].

(** A row without title link, or whose derived name is empty. *)
Definition nameless (row : node) : bool :=
  match find h2_child_a row with
  | [] => true
  | _ :: _ => negb (truthy (name (row_record row)))
  end.

Definition is_http_get (e : event) : bool :=
  match e with http_get _ _ => true | _ => false end.

End Props.
Export Props.

(* ================================================================== *)
(** ** What a run shows: the printed lines and the events by kind *)

Module Observations.

Definition is_console_log (e : event) : bool :=
  match e with console_log _ => true | _ => false end.

Definition is_console_error (e : event) : bool :=
  match e with console_error _ => true | _ => false end.

(** [main] goes on past its guard: [process.argv[2]] is a non-empty
    string. *)
Definition language_given (argv : list jsstring) : bool :=
  match nth_error argv 2 with
  | Some l => truthy l
  | None => false
  end.

(** The events one record adds when [displayRepos] reaches it at
    [index]. *)
Definition lines_of (r : repo) (index : nat) : list event :=
  snd (display_one r index []).

(** The events of the whole [forEach], started at [index]. *)
Fixpoint lines_from (index : nat) (rs : list repo) : list event :=
  match rs with
  | [] => []
  | r :: rest => lines_of r index ++ lines_from (S index) rest
  end.

(** The request the program makes for a language, lower-cased first. *)
Definition request_for (toLowerCase : jsstring -> jsstring)
           (language : jsstring) : event :=
  http_get (trending_url (toLowerCase language)) request_headers.

(** How the [try] block ends for a language: with the loaded document, or
    with the error its [catch] block receives, thrown by the request or
    by the load. *)
Definition caught_error
           (network : jsstring -> list (jsstring * jsstring) -> axios_result)
           (cheerio_load : js_value -> load_result)
           (language : jsstring) : document + axios_error :=
  match network (trending_url language) request_headers with
  | resolved data =>
      match cheerio_load data with
      | loaded dollar => inl dollar
      | load_threw error => inr error
      end
  | rejected error => inr error
  end.

(** What the program prints after the request, by the answer: the
    display of the records, or one error line. *)
Definition after_request
           (network : jsstring -> list (jsstring * jsstring) -> axios_result)
           (cheerio_load : js_value -> load_result)
           (toLowerCase : jsstring -> jsstring)
           (language : jsstring) : list event :=
  match caught_error network cheerio_load (toLowerCase language) with
  | inl dollar => snd (displayRepos (Some (extract dollar)) [])
  | inr error =>
      [console_error (if is_404 error
                      then [msg_language_not_found (toLowerCase language)]
                      else [msg_fetch_failed; message error])]
  end.

End Observations.
Export Observations.

(* ================================================================== *)
(** ** Further sample data *)

Module MoreFixtures.
Import Fixtures.

(** A heading with two links: the first has no href. *)
Definition row_two_links : node :=
  box_row [heading [anchor None (lit " owner /");
                    anchor (Some (lit "/owner/repo")) (lit " repo ")]].

(** A titled row whose paragraph is blank and which has no star link. *)
Definition row_bare : node :=
  box_row [heading [anchor (Some (lit "/a/b")) (lit "a/b")];
           paragraph (lit "   " ++ [10; 9])].

(** A 200 answer whose body axios parsed to [null], and a parser that
    takes strings only. *)
Definition network_json_null (_ : jsstring) (_ : list (jsstring * jsstring))
  : axios_result := resolved js_null.

Definition load_strings_as (d : document) (v : js_value) : load_result :=
  match v with
  | js_string _ => loaded d
  | _ => load_threw {| response := None;
                       message := lit "cheerio.load() expects a string" |}
  end.

Definition network_500 (_ : jsstring) (_ : list (jsstring * jsstring))
  : axios_result :=
  rejected {| response := Some {| status := 500 |};
              message := lit "Request failed with status code 500" |}.

(** Lower-casing of the letters A to Z, enough for the sample runs. *)
Definition ascii_lower (s : jsstring) : jsstring :=
  map (fun c => if (65 <=? c) && (c <=? 90) then c + 32 else c) s.

Definition sample_repos : list repo :=
  [ {| name := lit "foo/bar"; url := lit "https://github.com/foo/bar";
       description := lit "A  small   tool"; stars := lit "1,234" |};
    {| name := lit "u/v"; url := lit "https://github.com";
       description := []; stars := [] |} ].

End MoreFixtures.

(* ================================================================== *)
(** ** Facts about the string operations *)

Module StringFacts.

Lemma replace_ws_global_filter (s : jsstring) :
  replace_ws_global [] s = filter (fun c => negb (isWhiteSpace c)) s.
Proof.
  induction s as [|c s IH]; simpl; [reflexivity|].
  destruct (isWhiteSpace c); simpl; now rewrite IH.
Qed.

Lemma replace_ws_global_app (a b : jsstring) :
  replace_ws_global [] (a ++ b)
  = replace_ws_global [] a ++ replace_ws_global [] b.
Proof.
  rewrite !replace_ws_global_filter. apply filter_app.
Qed.

Lemma replace_ws_global_clean (s : jsstring) :
  no_whitespace (replace_ws_global [] s).
Proof.
  rewrite replace_ws_global_filter. apply Forall_forall.
  intros c Hc. apply filter_In in Hc. destruct Hc as [_ Hc].
  now apply negb_true_iff in Hc.
Qed.

Lemma replace_ws_global_fixed (s : jsstring) :
  no_whitespace s -> replace_ws_global [] s = s.
Proof.
  induction 1 as [|c s Hc _ IH]; simpl; [reflexivity|].
  now rewrite Hc, IH.
Qed.

Lemma truthy_app (a b : jsstring) :
  truthy (a ++ b) = truthy a || truthy b.
Proof. now destruct a. Qed.

Lemma truthy_false (s : jsstring) : truthy s = false <-> s = [].
Proof. destruct s; simpl; split; congruence. Qed.

Lemma truthy_true (s : jsstring) : truthy s = true <-> s <> [].
Proof. destruct s; simpl; split; congruence. Qed.

(** [trimStart] cuts a blank prefix and stops at the first other
    character. *)
Lemma trimStart_split (s : jsstring) :
  exists l, s = l ++ trimStart s /\ blank l.
Proof.
  induction s as [|c s [l [Hs Hl]]]; simpl.
  - exists []. split; [reflexivity | constructor].
  - destruct (isWhiteSpace c) eqn:Hc.
    + exists (c :: l). split; [simpl; now f_equal | now constructor].
    + exists []. split; [reflexivity | constructor].
Qed.

Lemma trimStart_head (s : jsstring) (c : N) (rest : jsstring) :
  trimStart s = c :: rest -> isWhiteSpace c = false.
Proof.
  induction s as [|d s IH]; simpl; [discriminate|].
  destruct (isWhiteSpace d) eqn:Hd; [exact IH|].
  intros E. injection E as -> _. exact Hd.
Qed.

Lemma trimStart_snoc (s : jsstring) (c : N) :
  isWhiteSpace c = false -> trimStart (s ++ [c]) = trimStart s ++ [c].
Proof.
  intros Hc. induction s as [|d s IH]; simpl.
  - now rewrite Hc.
  - destruct (isWhiteSpace d); [exact IH | reflexivity].
Qed.

Lemma trimEnd_split (s : jsstring) :
  exists r, s = trimEnd s ++ r /\ blank r.
Proof.
  unfold trimEnd. destruct (trimStart_split (rev s)) as [l [Hs Hl]].
  exists (rev l). split.
  - rewrite <- rev_app_distr, <- Hs. symmetry. apply rev_involutive.
  - now apply Forall_rev.
Qed.

Lemma trimEnd_last (s front : jsstring) (c : N) :
  trimEnd s = front ++ [c] -> isWhiteSpace c = false.
Proof.
  unfold trimEnd. intros E.
  apply (f_equal (@rev N)) in E.
  rewrite rev_involutive, rev_app_distr in E. simpl in E.
  now apply trimStart_head in E.
Qed.

Lemma trimEnd_cons (c : N) (s : jsstring) :
  isWhiteSpace c = false -> trimEnd (c :: s) = c :: trimEnd s.
Proof.
  intros Hc. unfold trimEnd. simpl.
  rewrite trimStart_snoc by exact Hc.
  rewrite rev_app_distr. reflexivity.
Qed.

Lemma trim_trimmed (s : jsstring) : trimmed_of (trim s) s.
Proof.
  unfold trim. split; [|split].
  - destruct (trimStart_split s) as [l [Hs Hl]].
    destruct (trimEnd_split (trimStart s)) as [r [Ht Hr]].
    exists l, r. split; [|now split].
    now rewrite <- Ht.
  - intros c rest E.
    destruct (trimStart s) as [|d s'] eqn:Ets.
    + discriminate E.
    + pose proof (trimStart_head _ _ _ Ets) as Hd.
      rewrite trimEnd_cons in E by exact Hd.
      injection E as -> _. exact Hd.
  - intros front c E. now apply trimEnd_last in E.
Qed.

End StringFacts.

(* ================================================================== *)
(** ** Facts about the extraction loop *)

Module ExtractorFacts.
Import StringFacts.

(** What one row adds to the array. *)
Lemma each_callback_cases (i : nat) (elem : node) (repos : list repo) :
  each_callback i elem repos
  = repos ++ (if truthy (name (row_record elem))
              then [row_record elem] else []).
Proof.
  unfold each_callback.
  destruct (truthy (name (row_record elem))); [reflexivity|].
  now rewrite app_nil_r.
Qed.

(** The loop only appends, whatever the array held and wherever the index
    started. *)
Lemma each_appends (selection : list node) :
  forall (i : nat) (repos : list repo),
    each each_callback i selection repos
    = repos ++ map row_record
                   (filter (fun e => truthy (name (row_record e))) selection).
Proof.
  induction selection as [|e rest IH]; intros i repos; cbn [each filter].
  - cbn [map]. now rewrite app_nil_r.
  - rewrite IH, each_callback_cases.
    destruct (truthy (name (row_record e))); cbn [map].
    + now rewrite <- app_assoc.
    + now rewrite app_nil_r.
Qed.

Lemma extract_filter (dollar : document) :
  extract dollar
  = map row_record
        (filter (fun e => truthy (name (row_record e))) (rows_of dollar)).
Proof. unfold extract. now rewrite each_appends. Qed.

Lemma in_extract (dollar : document) (r : repo) :
  In r (extract dollar) <->
  exists elem, In elem (rows_of dollar) /\ r = row_record elem
               /\ truthy (name r) = true.
Proof.
  rewrite extract_filter, in_map_iff. split.
  - intros [e [<- He]]. apply filter_In in He. destruct He as [He Ht].
    now exists e.
  - intros [e [He [-> Ht]]]. exists e. split; [reflexivity|].
    apply filter_In. now split.
Qed.

(** The name is non-empty exactly when some title link has text that is
    not all white space. *)
Lemma name_truthy_text (selection : list node) :
  truthy (replace_ws_global [] (text selection))
  = existsb (fun a => truthy (replace_ws_global [] (textContent a)))
            selection.
Proof.
  induction selection as [|a rest IH]; simpl; [reflexivity|].
  unfold text in *. simpl.
  now rewrite replace_ws_global_app, truthy_app, IH.
Qed.

Lemma well_titled_truthy (row : node) :
  well_titled row <-> truthy (name (row_record row)) = true.
Proof.
  unfold row_record. cbn [name]. rewrite name_truthy_text, existsb_exists.
  unfold well_titled. split; intros [a [Ha Ht]]; exists a; split; trivial.
  - now apply (proj2 (truthy_true _)).
  - now apply (proj1 (truthy_true _)).
Qed.

Lemma nameless_spec (row : node) :
  nameless row = negb (truthy (name (row_record row))).
Proof.
  unfold nameless, row_record. cbn [name].
  destruct (find h2_child_a row); reflexivity.
Qed.

Lemma filter_all {A} (f : A -> bool) (l : list A) :
  Forall (fun x => f x = true) l -> filter f l = l.
Proof.
  induction 1 as [|x l Hx _ IH]; simpl; [reflexivity|].
  now rewrite Hx, IH.
Qed.

Lemma filter_split_length {A} (f : A -> bool) (l : list A) :
  (List.length (filter f l)
   + List.length (filter (fun x => negb (f x)) l))%nat = List.length l.
Proof.
  induction l as [|x l IH]; simpl; [reflexivity|].
  destruct (f x); simpl; lia.
Qed.

End ExtractorFacts.

(* ================================================================== *)
(** ** Properties of the extraction *)

Module ExtractorSpec.
Import StringFacts ExtractorFacts Fixtures.

(** C1. When a document holds N row blocks ([article.Box-row]) and each
    has a title link whose text is not all white space, extraction returns
    exactly N records: the record of each row, in the document order of
    the rows. *)
Theorem extract_rows_in_document_order (dollar : document) (N : nat) :
  List.length (rows_of dollar) = N ->
  Forall well_titled (rows_of dollar) ->
  List.length (extract dollar) = N
  /\ extract dollar = map row_record (rows_of dollar).
Proof.
  intros HN Hall.
  assert (E : extract dollar = map row_record (rows_of dollar)).
  { rewrite extract_filter. f_equal. apply filter_all.
    eapply Forall_impl; [|exact Hall].
    intros row Hrow. now apply well_titled_truthy. }
  split; [|exact E].
  now rewrite E, length_map.
Qed.

Lemma extract_rows_in_document_order_witness :
  List.length (extract page_two_rows) = 2%nat
  /\ extract page_two_rows = map row_record [row_foo_bar; row_empty_href].
Proof.
  apply (extract_rows_in_document_order page_two_rows 2).
  - reflexivity.
  - apply Forall_forall. intros row Hrow. apply well_titled_truthy.
    vm_compute in Hrow. destruct Hrow as [<- | [<- | []]]; reflexivity.
Defined.

(** C2. Every emitted record has a name that is non-empty after white
    space is removed; a row without title link, or whose derived name is
    empty, leaves the array as it was (nothing fails: the callback is
    total), so the output is shorter than the list of rows by the number
    of such rows. *)
Theorem only_named_rows_are_emitted (dollar : document) :
  (forall r, In r (extract dollar) ->
     replace_ws_global [] (name r) <> [] /\ no_whitespace (name r))
  /\ (forall i row repos,
        nameless row = true -> each_callback i row repos = repos)
  /\ (List.length (extract dollar)
      + List.length (filter nameless (rows_of dollar)))%nat
     = List.length (rows_of dollar).
Proof.
  split; [|split].
  - intros r Hr. apply in_extract in Hr.
    destruct Hr as [row [_ [-> Ht]]].
    assert (Hclean : no_whitespace (name (row_record row))).
    { unfold row_record. cbn [name]. apply replace_ws_global_clean. }
    split; [|exact Hclean].
    rewrite replace_ws_global_fixed by exact Hclean.
    now apply truthy_true.
  - intros i row repos Hn. rewrite nameless_spec in Hn.
    apply negb_true_iff in Hn.
    rewrite each_callback_cases, Hn. apply app_nil_r.
  - rewrite extract_filter, length_map.
    rewrite (filter_ext nameless
               (fun e => negb (truthy (name (row_record e))))
               nameless_spec).
    apply filter_split_length.
Qed.

Lemma only_named_rows_are_emitted_witness :
  (replace_ws_global [] (name (row_record row_foo_bar)) <> []
   /\ no_whitespace (name (row_record row_foo_bar)))
  /\ each_callback 0 row_no_title [row_record row_foo_bar]
     = [row_record row_foo_bar]
  /\ each_callback 2 row_blank_title [row_record row_foo_bar]
     = [row_record row_foo_bar].
Proof.
  destruct (only_named_rows_are_emitted page_mixed) as [Hname [Hskip _]].
  split; [|split].
  - apply Hname. vm_compute. left. reflexivity.
  - apply Hskip. reflexivity.
  - apply Hskip. reflexivity.
Defined.

(** C3. The derived name of a row is the text of its title link with every
    white-space character removed, wherever it stands: the other
    characters are kept in order, and the title text " foo / bar " gives
    the name "foo/bar". *)
Theorem name_strips_all_whitespace :
  (forall row,
     name (row_record row)
     = filter (fun c => negb (isWhiteSpace c)) (text (find h2_child_a row))
     /\ no_whitespace (name (row_record row)))
  /\ text (find h2_child_a row_foo_bar) = lit " foo / bar "
  /\ name (row_record row_foo_bar) = lit "foo/bar"
  /\ map name (extract (page [row_foo_bar])) = [lit "foo/bar"].
Proof.
  split; [|repeat split; reflexivity].
  intros row. unfold row_record. cbn [name]. split.
  - apply replace_ws_global_filter.
  - apply replace_ws_global_clean.
Qed.

(** C4. The description and the stars of a row are the text of the
    paragraph and of the stargazers link with white space removed at both
    ends only: the text is the field between two blank margins, the field
    neither starts nor ends with white space, and white space inside it
    stays as it is. *)
Theorem description_and_stars_trimmed :
  (forall row,
     trimmed_of (description (row_record row)) (text (find p_col_9 row))
     /\ trimmed_of (stars (row_record row))
                   (text (find a_href_stargazers row)))
  /\ text (find p_col_9 row_foo_bar) = 10 :: lit "  A  small   tool " ++ [10]
  /\ description (row_record row_foo_bar) = lit "A  small   tool"
  /\ text (find a_href_stargazers row_foo_bar) = lit " 1,234 "
  /\ stars (row_record row_foo_bar) = lit "1,234".
Proof.
  split; [|repeat split; reflexivity].
  intros row. unfold row_record. cbn [description stars].
  split; apply trim_trimmed.
Qed.

(** C5, as the program behaves. Every emitted record is the record of a
    row, and its url follows the href attribute of the first title link
    of that row: when the link carries one, the url is
    "https://github.com" followed by that href, so with an empty href it
    is the bare origin; when the link carries none, the url is the origin
    followed by the word "undefined". *)
Theorem emitted_url_follows_href (dollar : document) (r : repo) :
  In r (extract dollar) ->
  exists row,
    In row (rows_of dollar) /\ r = row_record row
    /\ match attr (lit "href") (find h2_child_a row) with
       | Some href =>
           url r = lit "https://github.com" ++ href
           /\ (href = [] -> url r = lit "https://github.com")
       | None => url r = lit "https://github.comundefined"
       end.
Proof.
  intros Hr. apply in_extract in Hr. destruct Hr as [row [Hrow [-> _]]].
  exists row. split; [exact Hrow|]. split; [reflexivity|].
  unfold row_record. cbn [url].
  destruct (attr (lit "href") (find h2_child_a row)) as [href|].
  - split; [reflexivity|]. intros ->. apply app_nil_r.
  - reflexivity.
Qed.

Lemma emitted_url_follows_href_witness :
  exists row,
    In row (rows_of page_two_rows) /\ row_record row_empty_href = row_record row
    /\ match attr (lit "href") (find h2_child_a row) with
       | Some href =>
           url (row_record row_empty_href) = lit "https://github.com" ++ href
           /\ (href = [] ->
               url (row_record row_empty_href) = lit "https://github.com")
       | None =>
           url (row_record row_empty_href) = lit "https://github.comundefined"
       end.
Proof.
  apply (emitted_url_follows_href page_two_rows (row_record row_empty_href)).
  vm_compute. right. left. reflexivity.
Defined.

(** C5 as stated fails: the record of [row_no_href] is emitted, yet its
    title link carries no href whose value, put after the origin, gives
    the url, and the url is not the bare origin either. *)
Lemma emitted_url_without_href_is_not_origin_plus_href :
  In (row_record row_no_href) (extract page_mixed)
  /\ ~ (exists href,
          attr (lit "href") (find h2_child_a row_no_href) = Some href
          /\ url (row_record row_no_href) = lit "https://github.com" ++ href)
  /\ url (row_record row_no_href) <> lit "https://github.com".
Proof.
  split; [|split].
  - vm_compute. right. left. reflexivity.
  - intros [href [H _]]. discriminate H.
  - discriminate.
Qed.

(** C10. When the title link of a row has text that is not all white space
    but no href attribute at all, the row is emitted and its url is the
    origin followed by the word "undefined", not the bare origin. *)
Theorem url_without_href_is_undefined
        (dollar : document) (row a : node) (others : list node) :
  In row (rows_of dollar) ->
  find h2_child_a row = a :: others ->
  replace_ws_global [] (text (a :: others)) <> [] ->
  getAttributeValue (lit "href") a = None ->
  In (row_record row) (extract dollar)
  /\ url (row_record row) = lit "https://github.comundefined"
  /\ url (row_record row) <> lit "https://github.com".
Proof.
  intros Hrow Hfind Htext Hattr.
  assert (U : url (row_record row) = lit "https://github.comundefined").
  { unfold row_record. cbn [url]. rewrite Hfind. cbn [attr].
    now rewrite Hattr. }
  split; [|split].
  - apply in_extract. exists row. split; [exact Hrow|].
    split; [reflexivity|].
    unfold row_record. cbn [name]. rewrite Hfind. now apply truthy_true.
  - exact U.
  - rewrite U. discriminate.
Qed.

Lemma url_without_href_is_undefined_witness :
  In (row_record row_no_href) (extract page_mixed)
  /\ url (row_record row_no_href) = lit "https://github.comundefined"
  /\ url (row_record row_no_href) <> lit "https://github.com".
Proof.
  apply (url_without_href_is_undefined
           page_mixed row_no_href (anchor None (lit "x / y")) []).
  - vm_compute. do 3 right. left. reflexivity.
  - reflexivity.
  - vm_compute. discriminate.
  - reflexivity.
Defined.

End ExtractorSpec.

(* ================================================================== *)
(** ** Properties of the whole program *)

Module ProgramSpec.
Import StringFacts ExtractorFacts Fixtures.




Section Runs.

Variable network : jsstring -> list (jsstring * jsstring) -> axios_result.
Variable cheerio_load : js_value -> load_result.
Variable toLowerCase : jsstring -> jsstring.

(** What a fetch does, by the way its [try] block ends. *)
Lemma fetch_run (language : jsstring) (t : list event) :
  fetchTrendingRepos network cheerio_load language t
  = match caught_error network cheerio_load language with
    | inl dollar =>
        (returned (Some (extract dollar)),
         t ++ [console_log [msg_searching language];
               http_get (trending_url language) request_headers])
    | inr error =>
        (returned None,
         t ++ [console_log [msg_searching language];
               http_get (trending_url language) request_headers;
               console_error (if is_404 error
                              then [msg_language_not_found language]
                              else [msg_fetch_failed; message error])])
    end.
Proof.
  unfold fetchTrendingRepos, caught_error, catch_block, axios_get, bind,
    emit, ret.
  destruct (network (trending_url language) request_headers)
    as [data | error].
  - destruct (cheerio_load data) as [dollar | error].
    + now rewrite <- app_assoc.
    + destruct (is_404 error); now rewrite <- !app_assoc.
  - destruct (is_404 error); now rewrite <- !app_assoc.
Qed.

Lemma caught_loaded (language : jsstring) (data : js_value)
      (dollar : document) :
  network (trending_url language) request_headers = resolved data ->
  cheerio_load data = loaded dollar ->
  caught_error network cheerio_load language = inl dollar.
Proof. intros Hnet Hload. unfold caught_error. now rewrite Hnet, Hload. Qed.

Lemma caught_rejected (language : jsstring) (error : axios_error) :
  network (trending_url language) request_headers = rejected error ->
  caught_error network cheerio_load language = inr error.
Proof. intros Hnet. unfold caught_error. now rewrite Hnet. Qed.

Lemma caught_load_threw (language : jsstring) (data : js_value)
      (error : axios_error) :
  network (trending_url language) request_headers = resolved data ->
  cheerio_load data = load_threw error ->
  caught_error network cheerio_load language = inr error.
Proof. intros Hnet Hload. unfold caught_error. now rewrite Hnet, Hload. Qed.

Lemma fetch_loaded (language : jsstring) (data : js_value)
      (dollar : document) (t : list event) :
  network (trending_url language) request_headers = resolved data ->
  cheerio_load data = loaded dollar ->
  fetchTrendingRepos network cheerio_load language t
  = (returned (Some (extract dollar)),
     t ++ [console_log [msg_searching language];
           http_get (trending_url language) request_headers]).
Proof.
  intros Hnet Hload.
  now rewrite fetch_run, (caught_loaded _ _ _ Hnet Hload).
Qed.

Lemma fetch_caught (language : jsstring) (error : axios_error)
      (t : list event) :
  caught_error network cheerio_load language = inr error ->
  fetchTrendingRepos network cheerio_load language t
  = (returned None,
     t ++ [console_log [msg_searching language];
           http_get (trending_url language) request_headers;
           console_error (if is_404 error
                          then [msg_language_not_found language]
                          else [msg_fetch_failed; message error])]).
Proof. intros Hc. now rewrite fetch_run, Hc. Qed.

Lemma fetch_rejected (language : jsstring) (error : axios_error)
      (t : list event) :
  network (trending_url language) request_headers = rejected error ->
  fetchTrendingRepos network cheerio_load language t
  = (returned None,
     t ++ [console_log [msg_searching language];
           http_get (trending_url language) request_headers;
           console_error (if is_404 error
                          then [msg_language_not_found language]
                          else [msg_fetch_failed; message error])]).
Proof. intros Hnet. apply fetch_caught. now apply caught_rejected. Qed.

(** With a language on the command line the program is the fetch followed
    by the display of a non-null result. *)
Lemma run_with_language (argv : list jsstring) (language : jsstring) :
  nth_error argv 2 = Some language -> language <> [] ->
  run_main network cheerio_load toLowerCase argv
  = match fetchTrendingRepos network cheerio_load (toLowerCase language) [] with
    | (returned (Some rs), t) => displayRepos (Some rs) t
    | (returned None, t) => (returned tt, t)
    | (exited c, t) => (exited c, t)
    | (uncaught w, t) => (uncaught w, t)
    end.
Proof.
  intros Harg Hne. unfold run_main, main. rewrite Harg.
  apply truthy_true in Hne. rewrite Hne. cbn [negb].
  unfold bind at 1. unfold ret at 1. unfold bind at 1.
  destruct (fetchTrendingRepos network cheerio_load (toLowerCase language) [])
    as [[[rs|]| c | w] t]; reflexivity.
Qed.


(** C7. When the request for the language is answered by HTTP 404, the
    program prints the "language not found" message on the error stream
    and returns normally: the trace holds the progress line, the request
    and that message, so no list is printed and nothing is thrown. The
    message differs from every generic fetch-failure message, whatever
    error text that one carries. *)
Theorem not_found_reports_language_message
        (argv : list jsstring) (language : jsstring)
        (error : axios_error) (r : http_response) :
  nth_error argv 2 = Some language -> language <> [] ->
  network (trending_url (toLowerCase language)) request_headers
  = rejected error ->
  response error = Some r -> status r = 404%Z ->
  run_main network cheerio_load toLowerCase argv
  = (returned tt,
     [console_log [msg_searching (toLowerCase language)];
      http_get (trending_url (toLowerCase language)) request_headers;
      console_error [msg_language_not_found (toLowerCase language)]])
  /\ (forall other_text,
        render [msg_language_not_found (toLowerCase language)]
        <> render [msg_fetch_failed; other_text]).
Proof.
  intros Harg Hne Hnet Hresp Hstatus. split.
  - rewrite (run_with_language argv language Harg Hne).
    rewrite (fetch_rejected _ _ _ Hnet).
    unfold is_404. rewrite Hresp, Hstatus. reflexivity.
  - intros other_text E. discriminate E.
Qed.

(** C8. Without a language argument the program prints the usage error on
    the error stream, then the usage hint on the output stream, and exits
    with status 1; no request is made. *)
Theorem missing_language_prints_usage_and_exits (argv : list jsstring) :
  nth_error argv 2 = None ->
  run_main network cheerio_load toLowerCase argv
  = (exited 1, [console_error [msg_missing_language]; console_log [msg_usage]])
  /\ existsb is_http_get (snd (run_main network cheerio_load toLowerCase argv)) = false.
Proof.
  intros Harg. unfold run_main, main. rewrite Harg. split; reflexivity.
Qed.

End Runs.



Lemma not_found_reports_language_message_witness :
  run_main network_404 (load_as page_two_rows) identity_case
           (argv_of (lit "doesnotexist123"))
  = (returned tt,
     [console_log [msg_searching (lit "doesnotexist123")];
      http_get (trending_url (lit "doesnotexist123")) request_headers;
      console_error [msg_language_not_found (lit "doesnotexist123")]]).
Proof.
  apply (proj1 (not_found_reports_language_message
                  network_404 (load_as page_two_rows) identity_case
                  (argv_of (lit "doesnotexist123")) (lit "doesnotexist123")
                  {| response := Some {| status := 404 |};
                     message := lit "Request failed with status code 404" |}
                  {| status := 404 |}
                  eq_refl ltac:(discriminate) eq_refl eq_refl eq_refl)).
Defined.

Lemma missing_language_prints_usage_and_exits_witness :
  run_main network_ok (load_as page_two_rows) identity_case
           [lit "node"; lit "main.js"]
  = (exited 1, [console_error [msg_missing_language]; console_log [msg_usage]]).
Proof.
  apply (proj1 (missing_language_prints_usage_and_exits
                  network_ok (load_as page_two_rows) identity_case
                  [lit "node"; lit "main.js"] eq_refl)).
Defined.

End ProgramSpec.

(* ================================================================== *)
(** ** More facts about strings, the tree and the loop *)

Module MoreFacts.
Import StringFacts ExtractorFacts.

Lemma trimStart_blank (s : jsstring) : blank s -> trimStart s = [].
Proof.
  induction 1 as [|c s Hc _ IH]; cbn [trimStart]; [reflexivity|].
  now rewrite Hc.
Qed.

Lemma trim_blank (s : jsstring) : blank s -> trim s = [].
Proof. intros H. unfold trim. now rewrite (trimStart_blank s H). Qed.

Lemma trimStart_fixed (s : jsstring) :
  (forall c rest, s = c :: rest -> isWhiteSpace c = false) ->
  trimStart s = s.
Proof.
  destruct s as [|c s]; intros H; cbn [trimStart]; [reflexivity|].
  now rewrite (H c s eq_refl).
Qed.

Lemma trimEnd_fixed (s : jsstring) :
  (forall front c, s = front ++ [c] -> isWhiteSpace c = false) ->
  trimEnd s = s.
Proof.
  intros H. unfold trimEnd. rewrite trimStart_fixed.
  - apply rev_involutive.
  - intros c rest E. apply (H (rev rest) c).
    rewrite <- (rev_involutive s), E. reflexivity.
Qed.

Lemma trim_idempotent (s : jsstring) : trim (trim s) = trim s.
Proof.
  destruct (trim_trimmed s) as [_ [Hhead Hlast]].
  unfold trim at 1.
  rewrite (trimStart_fixed _ Hhead). now apply trimEnd_fixed.
Qed.

(** The descendants of an element are its children's subtrees, one after
    the other. *)
Lemma descendants_children (tag : jsstring)
      (attribs : list (jsstring * jsstring)) (cs : list node) :
  map snd (descendants (element tag attribs cs)) = all_nodes cs.
Proof.
  cbn [descendants]. unfold all_nodes.
  generalize (element tag attribs cs). intros parent.
  induction cs as [|c cs IH]; cbn [flat_map map]; [reflexivity|].
  rewrite map_app, IH. reflexivity.
Qed.

Lemma all_nodes_app (d1 d2 : document) :
  all_nodes (d1 ++ d2) = all_nodes d1 ++ all_nodes d2.
Proof. unfold all_nodes. apply flat_map_app. Qed.

Lemma rows_of_app (d1 d2 : document) :
  rows_of (d1 ++ d2) = rows_of d1 ++ rows_of d2.
Proof.
  unfold rows_of, select. now rewrite all_nodes_app, filter_app.
Qed.

Lemma rows_of_element (tag : jsstring)
      (attribs : list (jsstring * jsstring)) (cs : list node) :
  rows_of [element tag attribs cs]
  = (if matches article_Box_row (element tag attribs cs)
     then [element tag attribs cs] else []) ++ rows_of cs.
Proof.
  unfold rows_of, select, all_nodes at 1. cbn [flat_map].
  rewrite app_nil_r, descendants_children. cbn [filter].
  now destruct (matches article_Box_row (element tag attribs cs)).
Qed.

Lemma filter_nil_iff {A} (f : A -> bool) (l : list A) :
  filter f l = [] <-> forallb (fun x => negb (f x)) l = true.
Proof.
  induction l as [|x l IH]; cbn [filter forallb]; [tauto|].
  destruct (f x); cbn [negb andb]; [split; discriminate | exact IH].
Qed.

Lemma forallb_same {A} (f g : A -> bool) (l : list A) :
  (forall x, f x = g x) -> forallb f l = forallb g l.
Proof.
  intros H. induction l as [|x l IH]; cbn [forallb]; [reflexivity|].
  now rewrite H, IH.
Qed.

End MoreFacts.

(* ================================================================== *)
(** ** Further properties of the extraction *)

Module ExtractorMore.
Import StringFacts ExtractorFacts MoreFacts Fixtures MoreFixtures.

(** X1. Whatever the document, the result is the record of every row that
    is not nameless, in the document order of those rows; the other rows
    leave no trace in it. *)
Theorem extract_is_records_of_named_rows (dollar : document) :
  extract dollar
  = map row_record (filter (fun row => negb (nameless row)) (rows_of dollar)).
Proof.
  rewrite extract_filter. f_equal. apply filter_ext.
  intros row. rewrite nameless_spec. now rewrite negb_involutive.
Qed.

(** X2. The result is empty exactly when every row of the document is
    nameless; a document without rows is the first case of it. *)
Theorem extract_empty_iff (dollar : document) :
  (extract dollar = [] <-> forallb nameless (rows_of dollar) = true)
  /\ (rows_of dollar = [] -> extract dollar = []).
Proof.
  assert (E : extract dollar = [] <-> forallb nameless (rows_of dollar) = true).
  { rewrite extract_filter. split.
    - intros H. apply map_eq_nil in H. apply filter_nil_iff in H.
      rewrite <- H. apply forallb_same. intros row. apply nameless_spec.
    - intros H. replace (filter _ _) with (@nil node); [reflexivity|].
      symmetry. apply filter_nil_iff. rewrite <- H.
      apply forallb_same. intros row. symmetry. apply nameless_spec. }
  split; [exact E|].
  intros Hrows. apply E. now rewrite Hrows.
Qed.

Lemma extract_empty_iff_witness : extract page_empty = [].
Proof. apply (proj2 (extract_empty_iff page_empty)). reflexivity. Defined.

(** X3. Extraction goes through the top-level nodes one after the other:
    the records of two documents put side by side are the records of the
    first followed by those of the second, duplicates included. *)
Theorem extract_app (d1 d2 : document) :
  extract (d1 ++ d2) = extract d1 ++ extract d2.
Proof.
  rewrite !extract_filter, rows_of_app, filter_app. apply map_app.
Qed.

(** X4. An element that is not itself a row is transparent: a document
    made of that element gives the records of its children, so rows are
    found at any depth under containers. *)
Theorem extract_through_container
        (tag : jsstring) (attribs : list (jsstring * jsstring))
        (cs : list node) :
  matches article_Box_row (element tag attribs cs) = false ->
  extract [element tag attribs cs] = extract cs.
Proof.
  intros Hno. rewrite !extract_filter, rows_of_element, Hno. reflexivity.
Qed.

Lemma extract_through_container_witness :
  extract page_two_rows
  = extract [element (lit "body") []
               [element (lit "div") [(lit "class", lit "Box")]
                        [row_foo_bar; row_empty_href]]].
Proof.
  apply (extract_through_container (lit "html") []). reflexivity.
Defined.

(** X5. A row nested in another row is a row too: when a row block is
    itself matched, the rows of the document made of it are that block
    followed by the rows found under it. *)
Theorem rows_include_nested_rows
        (tag : jsstring) (attribs : list (jsstring * jsstring))
        (cs : list node) :
  matches article_Box_row (element tag attribs cs) = true ->
  rows_of [element tag attribs cs] = element tag attribs cs :: rows_of cs.
Proof. intros Hyes. now rewrite rows_of_element, Hyes. Qed.

Lemma rows_include_nested_rows_witness :
  rows_of [box_row [row_foo_bar; row_no_href]]
  = [box_row [row_foo_bar; row_no_href]; row_foo_bar; row_no_href].
Proof.
  apply (rows_include_nested_rows
           (lit "article") [(lit "class", lit "Box-row")]
           [row_foo_bar; row_no_href]).
  reflexivity.
Defined.

(** X6. The fields of an emitted record are stable: removing white space
    from the name, or trimming the description or the stars once more,
    changes nothing, and the url starts with the origin. *)
Theorem emitted_fields_are_normal (dollar : document) (r : repo) :
  In r (extract dollar) ->
  replace_ws_global [] (name r) = name r
  /\ trim (description r) = description r
  /\ trim (stars r) = stars r
  /\ firstn 18 (url r) = lit "https://github.com".
Proof.
  intros Hr. apply in_extract in Hr. destruct Hr as [row [_ [-> _]]].
  unfold row_record. cbn [name description stars url].
  repeat split.
  - apply replace_ws_global_fixed, replace_ws_global_clean.
  - apply trim_idempotent.
  - apply trim_idempotent.
Qed.

Lemma emitted_fields_are_normal_witness :
  trim (description (row_record row_foo_bar))
  = description (row_record row_foo_bar).
Proof.
  apply (emitted_fields_are_normal page_two_rows (row_record row_foo_bar)).
  vm_compute. left. reflexivity.
Defined.

(** X7. A missing or blank sub-element gives an empty field and costs the
    row nothing: when the paragraph text and the star-link text are blank
    (or nothing matches), description and stars are empty strings, and a
    row with a name is emitted all the same. *)
Theorem blank_parts_give_empty_fields (dollar : document) (row : node) :
  In row (rows_of dollar) ->
  nameless row = false ->
  blank (text (find p_col_9 row)) ->
  blank (text (find a_href_stargazers row)) ->
  In (row_record row) (extract dollar)
  /\ description (row_record row) = []
  /\ stars (row_record row) = [].
Proof.
  intros Hrow Hname Hp Hs. split; [|split].
  - apply in_extract. exists row. split; [exact Hrow|].
    split; [reflexivity|].
    rewrite nameless_spec in Hname. now apply negb_false_iff in Hname.
  - unfold row_record. cbn [description]. now apply trim_blank.
  - unfold row_record. cbn [stars]. now apply trim_blank.
Qed.

Lemma blank_parts_give_empty_fields_witness :
  In (row_record row_bare) (extract [row_bare])
  /\ description (row_record row_bare) = []
  /\ stars (row_record row_bare) = [].
Proof.
  apply (blank_parts_give_empty_fields [row_bare] row_bare).
  - vm_compute. left. reflexivity.
  - reflexivity.
  - vm_compute. repeat constructor.
  - vm_compute. constructor.
Defined.

(** X8. With several links in the heading, the name joins the texts of all
    of them, each without its white space, while the url is built from the
    href of the first link alone. *)
Theorem name_joins_links_url_reads_first
        (row a : node) (others : list node) :
  find h2_child_a row = a :: others ->
  name (row_record row)
  = replace_ws_global [] (textContent a)
    ++ replace_ws_global [] (text others)
  /\ url (row_record row)
     = lit "https://github.com"
       ++ template_value (getAttributeValue (lit "href") a).
Proof.
  intros Hfind. unfold row_record. cbn [name url]. rewrite Hfind. split.
  - unfold text. cbn [flat_map]. apply replace_ws_global_app.
  - reflexivity.
Qed.

Lemma name_joins_links_url_reads_first_witness :
  name (row_record row_two_links) = lit "owner/repo"
  /\ url (row_record row_two_links) = lit "https://github.comundefined".
Proof.
  apply (name_joins_links_url_reads_first
           row_two_links (anchor None (lit " owner /"))
           [anchor (Some (lit "/owner/repo")) (lit " repo ")]).
  reflexivity.
Defined.

End ExtractorMore.

(* ================================================================== *)
(** ** Facts about the display and about whole runs *)

Module DisplayFacts.
Import StringFacts ExtractorFacts.

Lemma display_one_run (r : repo) (index : nat) (t : list event) :
  display_one r index t = (returned tt, t ++ lines_of r index).
Proof.
  unfold lines_of, display_one, bind, emit. cbn [snd app].
  now rewrite <- !app_assoc.
Qed.

Lemma lines_of_length (r : repo) (index : nat) :
  List.length (lines_of r index) = 4%nat.
Proof. reflexivity. Qed.

Lemma forEach_run (rs : list repo) :
  forall (index : nat) (t : list event),
    forEach display_one index rs t = (returned tt, t ++ lines_from index rs).
Proof.
  induction rs as [|r rs IH]; intros index t; cbn [forEach lines_from].
  - unfold ret. now rewrite app_nil_r.
  - unfold bind. rewrite display_one_run, IH. now rewrite <- app_assoc.
Qed.

Lemma lines_from_length (rs : list repo) :
  forall index, List.length (lines_from index rs) = (4 * List.length rs)%nat.
Proof.
  induction rs as [|r rs IH]; intros index; cbn [lines_from]; [reflexivity|].
  rewrite length_app, lines_of_length, IH. cbn [List.length]. lia.
Qed.

(** The lines of the record at position [k] sit at offset [4 * k]. *)
Lemma lines_from_nth (rs : list repo) :
  forall (index k j : nat) (r : repo),
    nth_error rs k = Some r -> (j < 4)%nat ->
    nth_error (lines_from index rs) (4 * k + j)
    = nth_error (lines_of r (index + k)) j.
Proof.
  induction rs as [|r0 rs IH]; intros index k j r Hk Hj.
  - destruct k; discriminate Hk.
  - destruct k as [|k]; cbn [nth_error] in Hk; cbn [lines_from].
    + injection Hk as ->. rewrite Nat.add_0_r.
      apply nth_error_app1. rewrite lines_of_length. exact Hj.
    + rewrite nth_error_app2 by (rewrite lines_of_length; lia).
      rewrite lines_of_length.
      replace (4 * S k + j - 4)%nat with (4 * k + j)%nat by lia.
      rewrite (IH (S index) k j r Hk Hj). f_equal. f_equal. lia.
Qed.

Lemma displayRepos_listing (r : repo) (rs : list repo) (t : list event) :
  displayRepos (Some (r :: rs)) t
  = (returned tt,
     t ++ console_log [msg_header (List.length (r :: rs))]
       :: lines_from 0 (r :: rs)).
Proof.
  unfold displayRepos, bind, emit. rewrite forEach_run.
  now rewrite <- app_assoc.
Qed.

Lemma displayRepos_run (repos : option (list repo)) (t : list event) :
  displayRepos repos t = (returned tt, t ++ snd (displayRepos repos [])).
Proof.
  destruct repos as [[|r rs]|]; try reflexivity.
  now rewrite !displayRepos_listing.
Qed.

Lemma lines_of_are_logs (r : repo) (index : nat) :
  forallb is_console_log (lines_of r index) = true.
Proof. reflexivity. Qed.

Lemma lines_from_are_logs (rs : list repo) :
  forall index, forallb is_console_log (lines_from index rs) = true.
Proof.
  induction rs as [|r rs IH]; intros index; cbn [lines_from]; [reflexivity|].
  now rewrite forallb_app, lines_of_are_logs, IH.
Qed.

Lemma displayRepos_logs (repos : option (list repo)) :
  forallb is_console_log (snd (displayRepos repos [])) = true.
Proof.
  destruct repos as [[|r rs]|]; try reflexivity.
  rewrite displayRepos_listing. cbn [snd app forallb is_console_log andb].
  apply lines_from_are_logs.
Qed.

Lemma lines_of_not_none_found (r : repo) (index : nat) :
  ~ In (console_log [msg_none_found]) (lines_of r index).
Proof.
  intros [H | [H | [H | [H | []]]]]; injection H as H; discriminate H.
Qed.

Lemma lines_from_not_none_found (rs : list repo) :
  forall index, ~ In (console_log [msg_none_found]) (lines_from index rs).
Proof.
  induction rs as [|r rs IH]; intros index; cbn [lines_from]; [tauto|].
  intros H. apply in_app_or in H. destruct H as [H | H].
  - now apply lines_of_not_none_found in H.
  - now apply IH in H.
Qed.

Lemma logs_hold_no_request (l : list event) :
  forallb is_console_log l = true -> filter is_http_get l = [].
Proof.
  induction l as [|e l IH]; cbn [forallb filter]; [reflexivity|].
  intros H. apply andb_prop in H. destruct H as [He Hl].
  destruct e; try discriminate He. cbn [is_http_get]. now apply IH.
Qed.

Lemma logs_hold_no_error_lines (l : list event) :
  forallb is_console_log l = true -> filter is_console_error l = [].
Proof.
  induction l as [|e l IH]; cbn [forallb filter]; [reflexivity|].
  intros H. apply andb_prop in H. destruct H as [He Hl].
  destruct e; try discriminate He. cbn [is_console_error]. now apply IH.
Qed.

Lemma logs_hold_no_error (l : list event) :
  forallb is_console_log l = true -> existsb is_console_error l = false.
Proof.
  induction l as [|e l IH]; cbn [forallb existsb]; [reflexivity|].
  intros H. apply andb_prop in H. destruct H as [He Hl].
  destruct e; try discriminate He. cbn [is_console_error orb]. now apply IH.
Qed.

Section Runs.

Variable network : jsstring -> list (jsstring * jsstring) -> axios_result.
Variable cheerio_load : js_value -> load_result.
Variable toLowerCase : jsstring -> jsstring.

Lemma run_trace (argv : list jsstring) (language : jsstring) :
  nth_error argv 2 = Some language -> language <> [] ->
  run_main network cheerio_load toLowerCase argv
  = (returned tt,
     console_log [msg_searching (toLowerCase language)]
       :: request_for toLowerCase language
       :: after_request network cheerio_load toLowerCase language).
Proof.
  intros Harg Hne.
  rewrite (ProgramSpec.run_with_language _ _ _ argv language Harg Hne).
  unfold after_request. rewrite ProgramSpec.fetch_run.
  destruct (caught_error network cheerio_load (toLowerCase language))
    as [dollar | error].
  - rewrite displayRepos_run. reflexivity.
  - reflexivity.
Qed.

Lemma run_without_language (argv : list jsstring) :
  language_given argv = false ->
  run_main network cheerio_load toLowerCase argv
  = (exited 1, [console_error [msg_missing_language]; console_log [msg_usage]]).
Proof.
  unfold language_given, run_main, main.
  destruct (nth_error argv 2) as [l|]; [|reflexivity].
  intros Hl. rewrite Hl. reflexivity.
Qed.

Lemma language_given_inv (argv : list jsstring) :
  language_given argv = true ->
  exists l, nth_error argv 2 = Some l /\ l <> [].
Proof.
  unfold language_given. destruct (nth_error argv 2) as [l|]; [|discriminate].
  intros Hl. exists l. split; [reflexivity | now apply truthy_true].
Qed.

End Runs.

End DisplayFacts.

(* ================================================================== *)
(** ** Properties of the display *)

Module DisplaySpec.
Import StringFacts ExtractorFacts DisplayFacts Fixtures MoreFixtures.

Lemma display_line_at (rs : list repo) (t : list event) (k j : nat)
      (r : repo) :
  nth_error rs k = Some r -> (j < 4)%nat ->
  nth_error (snd (displayRepos (Some rs) t)) (List.length t + 1 + 4 * k + j)
  = nth_error (lines_of r k) j.
Proof.
  intros Hk Hj. destruct rs as [|r0 rs]; [destruct k; discriminate Hk|].
  rewrite displayRepos_listing. cbn [snd].
  rewrite nth_error_app2 by lia.
  replace (List.length t + 1 + 4 * k + j - List.length t)%nat
    with (S (4 * k + j)) by lia.
  cbn [nth_error].
  now rewrite (lines_from_nth (r0 :: rs) 0 k j r Hk Hj).
Qed.

(** X9. Given a non-empty array, [displayRepos] adds to the output a
    header carrying the number of records and then four lines per record,
    leaves what was printed before in place and returns normally. *)
Theorem display_prints_header_and_four_lines
        (rs : list repo) (t : list event) :
  rs <> [] ->
  displayRepos (Some rs) t
  = (returned tt,
     t ++ console_log [msg_header (List.length rs)] :: lines_from 0 rs)
  /\ List.length (snd (displayRepos (Some rs) t))
     = (List.length t + 1 + 4 * List.length rs)%nat.
Proof.
  intros Hne. destruct rs as [|r rs]; [congruence|].
  rewrite displayRepos_listing. split; [reflexivity|].
  cbn [snd]. rewrite length_app. cbn [List.length].
  rewrite (lines_from_length (r :: rs) 0). cbn [List.length]. lia.
Qed.

Lemma display_prints_header_and_four_lines_witness :
  List.length (snd (displayRepos (Some sample_repos) [console_log [msg_usage]]))
  = 10%nat.
Proof.
  apply (proj2 (display_prints_header_and_four_lines
                  sample_repos [console_log [msg_usage]]
                  ltac:(discriminate))).
Defined.

(** X10. Records are shown in array order and numbered from 1: the record
    at position k has its title line, with the number k + 1 and its name,
    right after the header and the 4 * k lines of the records before it,
    followed by its stars line and, two lines further, its url line. *)
Theorem display_numbers_records_in_order
        (rs : list repo) (t : list event) (k : nat) (r : repo) :
  nth_error rs k = Some r ->
  nth_error (snd (displayRepos (Some rs) t)) (List.length t + 1 + 4 * k + 0)
  = Some (console_log [colors_bright ++ number_to_string (k + 1) ++ lit ". "
                         ++ colors_cyan ++ name r ++ colors_reset])
  /\ nth_error (snd (displayRepos (Some rs) t)) (List.length t + 1 + 4 * k + 1)
     = Some (console_log [lit "   " ++ colors_yellow ++ [9733] ++ lit " "
                            ++ stars r ++ lit " estrelas" ++ colors_reset])
  /\ nth_error (snd (displayRepos (Some rs) t)) (List.length t + 1 + 4 * k + 3)
     = Some (console_log [lit "   " ++ colors_green ++ url r ++ colors_reset
                            ++ [10]]).
Proof.
  intros Hk.
  repeat split; rewrite (display_line_at rs t k _ r Hk) by lia; reflexivity.
Qed.

Lemma display_numbers_records_in_order_witness :
  nth_error (snd (displayRepos (Some sample_repos) [])) 5
  = Some (console_log [colors_bright ++ lit "2. " ++ colors_cyan ++ lit "u/v"
                         ++ colors_reset]).
Proof.
  apply (proj1 (display_numbers_records_in_order
                  sample_repos [] 1
                  {| name := lit "u/v"; url := lit "https://github.com";
                     description := []; stars := [] |}
                  eq_refl)).
Defined.

(** X11. The third line of a record shows its description; a record whose
    description is the empty string is shown with the fixed
    placeholder text instead. *)
Theorem display_replaces_empty_description
        (rs : list repo) (t : list event) (k : nat) (r : repo) :
  nth_error rs k = Some r ->
  nth_error (snd (displayRepos (Some rs) t)) (List.length t + 1 + 4 * k + 2)
  = Some (console_log
            [lit "   " ++ match description r with
                          | [] => msg_no_description
                          | _ :: _ => description r
                          end]).
Proof.
  intros Hk. rewrite (display_line_at rs t k 2 r Hk) by lia.
  unfold lines_of, display_one, bind, emit. cbn [snd app nth_error].
  now destruct (description r).
Qed.

Lemma display_replaces_empty_description_witness :
  nth_error (snd (displayRepos (Some sample_repos) [])) 7
  = Some (console_log [lit "   " ++ msg_no_description]).
Proof.
  apply (display_replaces_empty_description
           sample_repos [] 1
           {| name := lit "u/v"; url := lit "https://github.com";
              description := []; stars := [] |}
           eq_refl).
Defined.

(** X12. [displayRepos] prints the "nothing found" message exactly when
    its argument is [null] or an empty array: no line of a listing is that
    message. *)
Theorem display_none_found_iff (repos : option (list repo)) :
  In (console_log [msg_none_found]) (snd (displayRepos repos []))
  <-> repos = None \/ repos = Some [].
Proof.
  split.
  - destruct repos as [[|r rs]|]; [now right | | now left].
    rewrite displayRepos_listing. cbn [snd app].
    intros [H | H].
    + injection H as H. discriminate H.
    + now apply lines_from_not_none_found in H.
  - intros [-> | ->]; left; reflexivity.
Qed.

(** X13. Whatever its argument, [null] included, [displayRepos] returns
    normally, keeps the earlier output as it was and adds only lines of
    the output stream: nothing on the error stream, no request. *)
Theorem display_only_logs (repos : option (list repo)) (t : list event) :
  displayRepos repos t = (returned tt, t ++ snd (displayRepos repos []))
  /\ forallb is_console_log (snd (displayRepos repos [])) = true
  /\ existsb is_console_error (snd (displayRepos repos [])) = false
  /\ filter is_http_get (snd (displayRepos repos [])) = [].
Proof.
  split; [apply displayRepos_run|].
  pose proof (displayRepos_logs repos) as H.
  split; [exact H|]. split.
  - now apply logs_hold_no_error.
  - now apply logs_hold_no_request.
Qed.

End DisplaySpec.

(* ================================================================== *)
(** ** Further properties of whole runs *)

Module ProgramMore.
Import StringFacts ExtractorFacts DisplayFacts Fixtures MoreFixtures.

Section Runs.

Variable network : jsstring -> list (jsstring * jsstring) -> axios_result.
Variable cheerio_load : js_value -> load_result.
Variable toLowerCase : jsstring -> jsstring.

(** X14. [fetchTrendingRepos] always returns, and what it returns is
    [null] exactly when an error was caught: the request was rejected, or
    it resolved and the load of its data threw. Otherwise it is the array
    extracted from the loaded document, possibly empty. *)
Theorem fetch_returns_null_iff_caught
        (language : jsstring) (t : list event) :
  (exists repos,
     fst (fetchTrendingRepos network cheerio_load language t) = returned repos)
  /\ (fst (fetchTrendingRepos network cheerio_load language t) = returned None
      <-> (exists error,
             network (trending_url language) request_headers = rejected error)
          \/ (exists data error,
                network (trending_url language) request_headers
                = resolved data
                /\ cheerio_load data = load_threw error))
  /\ (forall data dollar,
        network (trending_url language) request_headers = resolved data ->
        cheerio_load data = loaded dollar ->
        fst (fetchTrendingRepos network cheerio_load language t)
        = returned (Some (extract dollar))).
Proof.
  split; [|split].
  - rewrite ProgramSpec.fetch_run.
    destruct (caught_error network cheerio_load language); now eexists.
  - rewrite ProgramSpec.fetch_run. unfold caught_error.
    destruct (network (trending_url language) request_headers)
      as [data | error].
    + destruct (cheerio_load data) as [dollar | error] eqn:Hload;
        cbn [fst]; split.
      * discriminate.
      * intros [[error H] | [data' [error [H Hl]]]]; [discriminate H|].
        injection H as <-. rewrite Hload in Hl. discriminate Hl.
      * intros _. right. now exists data, error.
      * reflexivity.
    + cbn [fst]. split; [|reflexivity].
      intros _. left. now exists error.
  - intros data dollar Hnet Hload.
    now rewrite (ProgramSpec.fetch_loaded _ _ _ _ _ t Hnet Hload).
Qed.

(** X15. When the request fails for any reason other than a 404 answer
    (no response at all, or a response with another status), the program
    prints the generic message followed by the error's own text on the
    error stream, prints nothing else and returns normally. *)
Theorem other_failures_report_error_text
        (argv : list jsstring) (language : jsstring) (error : axios_error) :
  nth_error argv 2 = Some language -> language <> [] ->
  network (trending_url (toLowerCase language)) request_headers
  = rejected error ->
  (forall r, response error = Some r -> status r <> 404%Z) ->
  run_main network cheerio_load toLowerCase argv
  = (returned tt,
     [console_log [msg_searching (toLowerCase language)];
      request_for toLowerCase language;
      console_error [msg_fetch_failed; message error]]).
Proof.
  intros Harg Hne Hnet Hstatus.
  rewrite (run_trace _ _ _ argv language Harg Hne).
  unfold after_request.
  rewrite (ProgramSpec.caught_rejected _ _ _ _ Hnet).
  assert (H404 : is_404 error = false).
  { unfold is_404. destruct (response error) as [r|]; [|reflexivity].
    apply Z.eqb_neq. now apply Hstatus. }
  now rewrite H404.
Qed.

(** X16. An empty string given as the language is treated as no argument:
    the usage error and the usage hint are printed, the program exits
    with status 1 and makes no request. *)
Theorem empty_language_is_missing (argv : list jsstring) :
  nth_error argv 2 = Some [] ->
  run_main network cheerio_load toLowerCase argv
  = (exited 1, [console_error [msg_missing_language]; console_log [msg_usage]]).
Proof.
  intros Harg. apply run_without_language.
  unfold language_given. now rewrite Harg.
Qed.

(** X17. A run ends in one of two ways only: it returns normally when a
    non-empty language was given, whatever the network answers and
    whatever the page holds, and it exits with status 1 otherwise. Nothing
    is ever thrown out of [main]. *)
Theorem run_outcome (argv : list jsstring) :
  fst (run_main network cheerio_load toLowerCase argv)
  = if language_given argv then returned tt else exited 1.
Proof.
  destruct (language_given argv) eqn:Hl.
  - destruct (language_given_inv argv Hl) as [l [Harg Hne]].
    now rewrite (run_trace _ _ _ argv l Harg Hne).
  - now rewrite (run_without_language _ _ _ argv Hl).
Qed.

(** X18. A run makes at most one request: with a non-empty language it is
    the single GET of the trending address of the lower-cased language
    with the browser User-Agent header, and without one there is none. *)
Theorem run_makes_one_request (argv : list jsstring) :
  filter is_http_get (snd (run_main network cheerio_load toLowerCase argv))
  = match nth_error argv 2 with
    | Some (c :: l) =>
        [http_get (lit "https://github.com/trending/" ++ toLowerCase (c :: l))
                  [(lit "User-Agent", user_agent)]]
    | _ => []
    end.
Proof.
  destruct (language_given argv) eqn:Hl.
  - destruct (language_given_inv argv Hl) as [l [Harg Hne]].
    rewrite (run_trace _ _ _ argv l Harg Hne), Harg.
    destruct l as [|c l]; [congruence|].
    cbn [snd filter is_http_get request_for]. f_equal.
    unfold after_request.
    destruct (caught_error _ _ _) as [dollar | error].
    + apply logs_hold_no_request, displayRepos_logs.
    + reflexivity.
  - rewrite (run_without_language _ _ _ argv Hl).
    unfold language_given in Hl.
    destruct (nth_error argv 2) as [[|c l]|]; try reflexivity.
    discriminate Hl.
Qed.

(** X19. With a language given, the progress line is printed first and
    the request comes right after it, before anything is known of the
    answer. *)
Theorem run_announces_then_requests
        (argv : list jsstring) (language : jsstring) :
  nth_error argv 2 = Some language -> language <> [] ->
  firstn 2 (snd (run_main network cheerio_load toLowerCase argv))
  = [console_log [msg_searching (toLowerCase language)];
     request_for toLowerCase language].
Proof.
  intros Harg Hne. now rewrite (run_trace _ _ _ argv language Harg Hne).
Qed.

(** X20. When the page is fetched and loaded and at least one record is
    extracted, the run prints the progress line, makes the request, prints
    the header with the number of records and four lines per record in
    the order of extraction, and writes nothing to the error stream. *)
Theorem run_lists_extracted_records
        (argv : list jsstring) (language : jsstring) (data : js_value)
        (dollar : document) :
  nth_error argv 2 = Some language -> language <> [] ->
  network (trending_url (toLowerCase language)) request_headers
  = resolved data ->
  cheerio_load data = loaded dollar ->
  extract dollar <> [] ->
  run_main network cheerio_load toLowerCase argv
  = (returned tt,
     [console_log [msg_searching (toLowerCase language)];
      request_for toLowerCase language;
      console_log [msg_header (List.length (extract dollar))]]
     ++ lines_from 0 (extract dollar))
  /\ existsb is_console_error
             (snd (run_main network cheerio_load toLowerCase argv)) = false.
Proof.
  intros Harg Hne Hnet Hload Hrecs.
  rewrite (run_trace _ _ _ argv language Harg Hne).
  unfold after_request.
  rewrite (ProgramSpec.caught_loaded _ _ _ _ _ Hnet Hload).
  destruct (extract dollar) as [|r rs] eqn:E; [congruence|].
  rewrite displayRepos_listing. split; [reflexivity|].
  cbn [snd app existsb is_console_error request_for orb].
  apply logs_hold_no_error, lines_from_are_logs.
Qed.

(** X21. With a language given, the error stream receives at most one
    line, and it receives one exactly when an error was caught: the
    request was rejected, or it resolved and the load of its data
    threw. *)
Theorem run_errors_iff_caught
        (argv : list jsstring) (language : jsstring) :
  nth_error argv 2 = Some language -> language <> [] ->
  (List.length
     (filter is_console_error
             (snd (run_main network cheerio_load toLowerCase argv)))
   <= 1)%nat
  /\ (existsb is_console_error
              (snd (run_main network cheerio_load toLowerCase argv)) = true
      <-> (exists error,
             network (trending_url (toLowerCase language)) request_headers
             = rejected error)
          \/ (exists data error,
                network (trending_url (toLowerCase language)) request_headers
                = resolved data
                /\ cheerio_load data = load_threw error)).
Proof.
  intros Harg Hne.
  rewrite (run_trace _ _ _ argv language Harg Hne).
  cbn [snd filter existsb is_console_error request_for orb].
  unfold after_request, caught_error.
  destruct (network (trending_url (toLowerCase language)) request_headers)
    as [data | error].
  - destruct (cheerio_load data) as [dollar | error] eqn:Hload.
    + pose proof (displayRepos_logs (Some (extract dollar))) as H.
      split.
      * rewrite (logs_hold_no_error_lines _ H). cbn [List.length]. lia.
      * rewrite (logs_hold_no_error _ H). split; [discriminate|].
        intros [[error E] | [data' [error [E Hl]]]]; [discriminate E|].
        injection E as <-. rewrite Hload in Hl. discriminate Hl.
    + split; [cbn; lia|].
      split; [|reflexivity]. intros _. right. now exists data, error.
  - split; [cbn; lia|].
    split; [|reflexivity]. intros _. left. now exists error.
Qed.

(** X22. When the request resolves but the load of its data throws an
    error that carries no response (as when the body is not a string),
    the program prints the generic message with the error's own text on
    the error stream, prints no list and no "nothing found" message, and
    returns normally. *)
Theorem load_failure_reports_error_text
        (argv : list jsstring) (language : jsstring) (data : js_value)
        (error : axios_error) :
  nth_error argv 2 = Some language -> language <> [] ->
  network (trending_url (toLowerCase language)) request_headers
  = resolved data ->
  cheerio_load data = load_threw error ->
  response error = None ->
  run_main network cheerio_load toLowerCase argv
  = (returned tt,
     [console_log [msg_searching (toLowerCase language)];
      request_for toLowerCase language;
      console_error [msg_fetch_failed; message error]]).
Proof.
  intros Harg Hne Hnet Hload Hresp.
  rewrite (run_trace _ _ _ argv language Harg Hne).
  unfold after_request.
  rewrite (ProgramSpec.caught_load_threw _ _ _ _ _ Hnet Hload).
  unfold is_404. now rewrite Hresp.
Qed.

End Runs.

Lemma other_failures_report_error_text_witness :
  run_main network_500 (load_as page_two_rows) ascii_lower
           (argv_of (lit "Python"))
  = (returned tt,
     [console_log [msg_searching (lit "python")];
      http_get (trending_url (lit "python")) request_headers;
      console_error [msg_fetch_failed;
                     lit "Request failed with status code 500"]]).
Proof.
  apply (other_failures_report_error_text
           network_500 (load_as page_two_rows) ascii_lower
           (argv_of (lit "Python")) (lit "Python")
           {| response := Some {| status := 500 |};
              message := lit "Request failed with status code 500" |}
           eq_refl ltac:(discriminate) eq_refl).
  intros r E. injection E as <-. discriminate.
Defined.

Lemma empty_language_is_missing_witness :
  run_main network_ok (load_as page_two_rows) ascii_lower (argv_of [])
  = (exited 1, [console_error [msg_missing_language]; console_log [msg_usage]]).
Proof.
  apply (empty_language_is_missing
           network_ok (load_as page_two_rows) ascii_lower (argv_of [])
           eq_refl).
Defined.

Lemma run_announces_then_requests_witness :
  firstn 2 (snd (run_main network_down (load_as page_empty) ascii_lower
                          (argv_of (lit "Rust"))))
  = [console_log [msg_searching (lit "rust")];
     http_get (trending_url (lit "rust")) request_headers].
Proof.
  apply (run_announces_then_requests
           network_down (load_as page_empty) ascii_lower
           (argv_of (lit "Rust")) (lit "Rust") eq_refl ltac:(discriminate)).
Defined.

Lemma run_lists_extracted_records_witness :
  existsb is_console_error
          (snd (run_main network_ok (load_as page_two_rows) ascii_lower
                         (argv_of (lit "python")))) = false.
Proof.
  apply (proj2 (run_lists_extracted_records
                  network_ok (load_as page_two_rows) ascii_lower
                  (argv_of (lit "python")) (lit "python")
                  (js_string (lit "<html>")) page_two_rows
                  eq_refl ltac:(discriminate) eq_refl eq_refl
                  ltac:(vm_compute; discriminate))).
Defined.

Lemma run_errors_iff_caught_witness :
  existsb is_console_error
          (snd (run_main network_json_null (load_strings_as page_two_rows)
                         ascii_lower (argv_of (lit "go")))) = true.
Proof.
  apply (proj2 (run_errors_iff_caught
                  network_json_null (load_strings_as page_two_rows)
                  ascii_lower (argv_of (lit "go")) (lit "go")
                  eq_refl ltac:(discriminate))).
  right. eexists. eexists. split; reflexivity.
Defined.

Lemma load_failure_reports_error_text_witness :
  run_main network_json_null (load_strings_as page_two_rows) ascii_lower
           (argv_of (lit "Python"))
  = (returned tt,
     [console_log [msg_searching (lit "python")];
      http_get (trending_url (lit "python")) request_headers;
      console_error [msg_fetch_failed;
                     lit "cheerio.load() expects a string"]]).
Proof.
  apply (load_failure_reports_error_text
           network_json_null (load_strings_as page_two_rows) ascii_lower
           (argv_of (lit "Python")) (lit "Python") js_null
           {| response := None;
              message := lit "cheerio.load() expects a string" |}
           eq_refl ltac:(discriminate) eq_refl eq_refl eq_refl).
Defined.

End ProgramMore.
